(** * Dreamweaver bedtime-story engine (story_engine.py)

    A shallow embedding of the pipeline's control logic: the length
    estimator, the request categorizer, the moral selector and the five call
    sites of the generative text service, followed by the properties the
    specification states about them.

    Conventions of the embedding.
    - A Python [str] is a Rocq [string], read as the UTF-8 bytes of the text.
      Case mapping ([str.upper], [str.lower]) and white space ([str.strip])
      are those of the ASCII range, where they coincide with Python's; bytes
      above 127 are left as they are.
    - A Python [float] is a binary64 number, [spec_float] with precision 53
      and maximal exponent 1024; arithmetic is the standard library's
      reference implementation (round to nearest, ties to even).
    - A Python [int] is a [Z].
    - Effects (the process environment, the text service, standard input and
      output, the random generator) are threaded through an explicit [World]
      by a state-and-exception monad. *)

From Stdlib Require Import ZArith QArith Qround Qabs List String Ascii Bool Lia.
From Stdlib Require Import SpecFloat DecimalString.
Import ListNotations.

Local Open Scope string_scope.
Local Open Scope Z_scope.

(* ================================================================== *)
(** ** Python strings *)
(* ================================================================== *)

Module PyStr.

(** The double quote character (code 34). *)
Definition dq : string := String (ascii_of_nat 34) EmptyString.

(** The line feed character (code 10). *)
Definition nl : string := String (ascii_of_nat 10) EmptyString.

Definition is_ascii_upper (c : ascii) : bool :=
  let n := nat_of_ascii c in (65 <=? n)%nat && (n <=? 90)%nat.

Definition is_ascii_lower (c : ascii) : bool :=
  let n := nat_of_ascii c in (97 <=? n)%nat && (n <=? 122)%nat.

Definition lower_char (c : ascii) : ascii :=
  if is_ascii_upper c then ascii_of_nat (nat_of_ascii c + 32) else c.

Definition upper_char (c : ascii) : ascii :=
  if is_ascii_lower c then ascii_of_nat (nat_of_ascii c - 32) else c.

Fixpoint map_chars (f : ascii -> ascii) (s : string) : string :=
  match s with
  | EmptyString => EmptyString
  | String c t => String (f c) (map_chars f t)
  end.

(** [s.lower()] and [s.upper()]. *)
Definition lower : string -> string := map_chars lower_char.
Definition upper : string -> string := map_chars upper_char.

(** White space as [str.strip()] sees it in the ASCII range: tab, line feed,
    vertical tab, form feed, carriage return, the four separators 28-31 and
    the space. *)
Definition is_space (c : ascii) : bool :=
  let n := nat_of_ascii c in
  ((9 <=? n)%nat && (n <=? 13)%nat) || ((28 <=? n)%nat && (n <=? 32)%nat).

Fixpoint lstrip (s : string) : string :=
  match s with
  | EmptyString => EmptyString
  | String c t => if is_space c then lstrip t else s
  end.

Fixpoint rstrip (s : string) : string :=
  match s with
  | EmptyString => EmptyString
  | String c t =>
      match rstrip t with
      | EmptyString => if is_space c then EmptyString else String c EmptyString
      | r => String c r
      end
  end.

(** [s.strip()]. *)
Definition strip (s : string) : string := rstrip (lstrip s).

(** [s.startswith(p)]. *)
Definition startswith (s p : string) : bool := String.prefix p s.

(** [kw in text]: does [kw] occur in [text] as a contiguous substring? *)
Fixpoint contains (kw text : string) : bool :=
  String.prefix kw text ||
  match text with
  | EmptyString => false
  | String _ t => contains kw t
  end.

(** Truth value of a string: [not s] holds for the empty string only. *)
Definition truthy (s : string) : bool :=
  match s with EmptyString => false | _ => true end.

(** [str(n)] for an int: decimal digits, with a leading minus sign when
    negative. *)
Definition str_of_int (n : Z) : string :=
  NilZero.string_of_int (Z.to_int n).

End PyStr.

Import PyStr.

(* ================================================================== *)
(** ** Exceptions and results *)
(* ================================================================== *)

(** The exceptions the program can raise or let through. [ServiceError]
    stands for whatever the service client raises. *)
Inductive exn : Type :=
| RuntimeError (msg : string)
| EOFError
| IndexError
| OverflowError
| ValueError
| ServiceError (detail : string).

Inductive outcome (A : Type) : Type :=
| Ok (a : A)
| Raise (e : exn).

Arguments Ok {A} a.
Arguments Raise {A} e.

(* ================================================================== *)
(** ** Python floats (binary64) *)
(* ================================================================== *)

Module PyFloat.

Definition prec : Z := 53.
Definition emax : Z := 1024.

Definition float : Type := spec_float.

(** A well-formed binary64 value: canonical mantissa, exponent in range. *)
Definition valid (x : float) : bool := valid_binary prec emax x.

(** [float(n)] for an int [n]; exact when [|n| < 2^53]. *)
Definition of_int (n : Z) : float := binary_normalize prec emax n 0 false.

Definition mul : float -> float -> float := SFmul prec emax.
Definition div : float -> float -> float := SFdiv prec emax.
Definition leb : float -> float -> bool := SFleb.

(** The float a decimal literal [n/d] denotes: the binary64 nearest to the
    quotient (both [n] and [d] are exact, so one correctly rounded division
    gives it). [decimal 35 100] is the literal [0.35]. *)
Definition decimal (n d : Z) : float := div (of_int n) (of_int d).

(** The literal [0.0]. *)
Definition zero : float := S754_zero false.


(** The rational a float denotes (0 for infinities and NaN). *)
Definition to_Q (x : float) : Q :=
  match x with
  | S754_finite s m e =>
      match e with
      | Zneg k => cond_Zopp s (Zpos m) # (2 ^ k)
      | _ => inject_Z (cond_Zopp s (Zpos m) * 2 ^ e)
      end
  | _ => 0%Q
  end.

(** [int(x)]: the fractional part is discarded (rounding toward zero);
    infinities and NaN raise. *)
Definition to_int (x : float) : outcome Z :=
  match x with
  | S754_nan => Raise ValueError
  | S754_infinity _ => Raise OverflowError
  | S754_zero _ => Ok 0
  | S754_finite s m e =>
      Ok match e with
         | Zneg k => Z.quot (cond_Zopp s (Zpos m)) (Zpos (2 ^ k))
         | _ => cond_Zopp s (Zpos m) * 2 ^ e
         end
  end.

(** Nearest integer to [n/d] for [0 <= n], [0 < d], ties to the even one. *)
Definition div_half_even (n d : Z) : Z :=
  let q := n / d in
  match 2 * (n mod d) ?= d with
  | Lt => q
  | Gt => q + 1
  | Eq => if Z.even q then q else q + 1
  end.

(** [format(x, ".1f")]: one digit after the point, correctly rounded from
    the exact binary value. *)
Definition format_1f (x : float) : string :=
  let sign (s : bool) := if s then "-" else "" in
  match x with
  | S754_nan => "nan"
  | S754_infinity s => sign s ++ "inf"
  | S754_zero s => sign s ++ "0.0"
  | S754_finite s m e =>
      let tenths :=
        match e with
        | Zneg k => div_half_even (10 * Zpos m) (Zpos (2 ^ k))
        | _ => 10 * Zpos m * 2 ^ e
        end in
      sign s ++ str_of_int (tenths / 10) ++ "." ++ str_of_int (tenths mod 10)
  end.

End PyFloat.

Import PyFloat.

(* ================================================================== *)
(** ** Length estimator *)
(* ================================================================== *)

(** [estimate_word_target] (lines 49-54): [int(length_minutes * 150)]. The
    int 150 is converted to a float and the product is a binary64 product. *)
Definition estimate_word_target (length_minutes : float) : outcome Z :=
  to_int (mul length_minutes (of_int 150)).

(* ================================================================== *)
(** ** Request categorizer *)
(* ================================================================== *)

(** [categorize_request] (lines 60-68). *)
Definition categorize_request (request : string) : string :=
  let text := lower request in
  if contains "doctor" text || contains "hospital" text || contains "nurse" text
  then "medical_comfort"
  else if contains "space" text || contains "planet" text
          || contains "rocket" text || contains "star" text
  then "space_adventure"
  else if contains "animal" text || contains "cat" text || contains "dog" text
          || contains "forest" text || contains "farm" text
  then "animal_friendship"
  else "generic".

(* ================================================================== *)
(** ** The world and the monad of effects *)
(* ================================================================== *)

(** What [openai.ChatCompletion.create] is called with (lines 22-28); the
    single user message is kept by its content. *)
Record ChatRequest : Type := mkRequest {
  rq_model : string;
  rq_content : string;
  rq_stream : bool;
  rq_max_tokens : Z;
  rq_temperature : float
}.

(** The surroundings of a run.
    - [api_key_env] is [os.getenv("OPENAI_API_KEY")].
    - [service] is the text service: given the requests already made and the
      present one, the content of its first choice, or the exception it
      raises.
    - [sent] logs the requests made, oldest first.
    - [stdin] holds the lines still to be read, [stdout] what was written.
    - [rng] is the random tape and [rng_used] the number of draws taken. *)
Record World : Type := mkWorld {
  api_key_env : option string;
  service : list ChatRequest -> ChatRequest -> outcome string;
  sent : list ChatRequest;
  stdin : list string;
  stdout : list string;
  rng : nat -> nat;
  rng_used : nat
}.

Definition set_sent (w : World) (l : list ChatRequest) : World :=
  mkWorld (api_key_env w) (service w) l (stdin w) (stdout w) (rng w) (rng_used w).

Definition set_io (w : World) (i o : list string) : World :=
  mkWorld (api_key_env w) (service w) (sent w) i o (rng w) (rng_used w).

Definition set_rng_used (w : World) (n : nat) : World :=
  mkWorld (api_key_env w) (service w) (sent w) (stdin w) (stdout w) (rng w) n.

(** Computations: a result or an exception, and the world afterwards. *)
Definition M (A : Type) : Type := World -> outcome A * World.

Definition ret {A : Type} (a : A) : M A := fun w => (Ok a, w).

Definition raise {A : Type} (e : exn) : M A := fun w => (Raise e, w).

Definition bind {A B : Type} (c : M A) (k : A -> M B) : M B :=
  fun w =>
    match c w with
    | (Ok a, w') => k a w'
    | (Raise e, w') => (Raise e, w')
    end.

Definition lift {A : Type} (r : outcome A) : M A := fun w => (r, w).

Notation "x <- c ;; k" := (bind c (fun x => k))
  (at level 61, c at next level, right associativity).
Notation "' pat <- c ;; k" := (bind c (fun x => match x with pat => k end))
  (at level 61, pat pattern, c at next level, right associativity).
Notation "c ;; k" := (bind c (fun _ => k))
  (at level 61, right associativity).

(** [print(s)]. *)
Definition print (s : string) : M unit :=
  fun w => (Ok tt, set_io w (stdin w) (stdout w ++ [s ++ nl])).

(** [input(prompt)]: writes the prompt, reads one line; [EOFError] when no
    line is left. *)
Definition input (prompt : string) : M string :=
  fun w =>
    match stdin w with
    | [] => (Raise EOFError, set_io w [] (stdout w ++ [prompt]))
    | line :: rest => (Ok line, set_io w rest (stdout w ++ [prompt]))
    end.

(** [random.choice(seq)]: the element at a random index below [len(seq)],
    [IndexError] on an empty sequence. The index is the next draw of the
    tape, folded into range. *)
Definition random_choice (seq : list string) : M string :=
  fun w =>
    match seq with
    | [] => (Raise IndexError, w)
    | x :: _ =>
        (Ok (nth (rng w (rng_used w) mod List.length seq)%nat seq x),
         set_rng_used w (S (rng_used w)))
    end.

(** The request reaches the service: it is logged and answered. *)
Definition create (rq : ChatRequest) : M string :=
  fun w => (service w (sent w) rq, set_sent w (sent w ++ [rq])).

(** [not openai.api_key]: the variable is unset, or set to the empty string. *)
Definition key_missing (k : option string) : bool :=
  match k with
  | Some s => negb (truthy s)
  | None => true
  end.

(** [call_model] (lines 16-29). An omitted keyword argument is [None] and
    takes the default of the signature. *)
Definition call_model (prompt : string) (max_tokens : option Z)
    (temperature : option float) : M string :=
  let max_tokens := match max_tokens with Some n => n | None => 1500 end in
  let temperature :=
    match temperature with Some t => t | None => decimal 4 10 end in
  fun w =>
    if key_missing (api_key_env w)
    then raise (RuntimeError "Please set the OPENAI_API_KEY environment variable.") w
    else create (mkRequest "gpt-3.5-turbo" prompt false max_tokens temperature) w.

(* ================================================================== *)
(** ** Moral selection and safety *)
(* ================================================================== *)

(** [SAFE_MORALS] (lines 74-85). *)
Definition SAFE_MORALS : list string := [
  "Kindness to others is important.";
  "Sharing and generosity make everyone happier.";
  "Being honest and telling the truth matters.";
  "It is okay to be afraid; courage means trying anyway.";
  "Friends help each other and work together.";
  "Taking care of the world and nature is important.";
  "Everyone makes mistakes, and we can learn from them.";
  "Being patient and not giving up helps you grow.";
  "It is important to be yourself and accept who you are.";
  "Helping others when they need it is a good thing."
].

(** Three double quotes, as the instructions fence the texts they embed. *)
Definition dq3 : string := dq ++ dq ++ dq.

(** The instruction composed by [classify_moral_safety] (lines 107-131). *)
Definition classify_moral_safety_prompt (moral : string) (age : Z) : string :=
  "
    You are a safety and ethics classifier for children's bedtime story morals.

    A parent has requested the following moral/lesson for a story intended for a child
    who is " ++
  str_of_int age ++
  " years old (between 5 and 10):

    MORAL:
    " ++
  dq3 ++
  moral ++
  dq3 ++
  "

    Your task:
    - Decide if this moral is SAFE and AGE-APPROPRIATE for a 5–10 year old child.
    - A safe moral should emphasize positive traits such as kindness, empathy,
    cooperation, honesty, curiosity, patience, courage, self-acceptance,
    responsibility, or gentle resilience.
    - A moral is UNSAFE if it encourages harm, hatred, exclusion, bullying, cruelty,
    risky or illegal behavior, unhealthy relationships, self-blame, extreme
    self-sacrifice, or anything that could be psychologically harmful or confusing
    to a young child.

    Return EXACTLY ONE WORD (no explanation):
    Either:
    SAFE
    or
    UNSAFE
    ".

(** The instruction composed by [generate_story] (lines 169-212). *)
Definition generate_story_prompt (request : string) (age : Z) (category : string) (length_minutes : float) (moral : string) (target_words : Z) : string :=
  "
You are an expert fiction writer.

Goal:
Write a bedtime story appropriate for a child who is " ++
  str_of_int age ++
  " years old (ages 5–10).

USER REQUEST:
" ++
  dq3 ++
  request ++
  dq3 ++
  "

CATEGORY: " ++
  category ++
  "

DESIRED MORAL / LESSON:
" ++
  dq3 ++
  moral ++
  dq3 ++
  "

The story should clearly embody this moral through the actions, choices,
and growth of the main character. Do not lecture; show the moral through the story. The main character should learn the moral themselves through the challenge.

Story length requirements:
- The story should take about " ++
  format_1f length_minutes ++
  " minutes to read aloud.
- Aim for approximately " ++
  str_of_int target_words ++
  " words total (±20% is okay).
- Use clear paragraphs and simple sentence structures.

Content requirements:
- Create characters and worlds that will capture their imaginations and emotions.
- Use sensory-rich descriptions so the child can visualize the scene.
- The main character should be a child. THey should be kind, curious, or brave - but not perfect. Trying is beautiful.
- The story is about the character's inner journey, not the external events.

Safety requirements:
- Keep your target audience of young children firmly in mind.
- No violence, no scary imagery, no injuries, no blood, no abuse, no self-harm, no sexual content.

Story structure requirements:
    Write the story in 6 acts:

    Act 1 — This part introduces: The main character (who they are, what they care about), Where they are (setting), What they want (desire)
    Act 2 - The Inciting Incident: Something small changes. Something unexpected that sparks curiosity or tension. This gives the story momentum.
    Act 3 - Rising Action: Here, the character: Learns something new, meets someone helpful, faces a challenge. The purpose is to grow the character and gently stimulate imagination.
    Act 4 - The Turning Point/Climax: A moment of high tension. The moment of insight. The moment of connection. The moment of emotional discovery.
    Act 5 - The Resolution: The challenge is resolved. The purpose is to give closure and to emphasize THE MORAL OF THE STORY.
    Act 6 - The Denouement (The Sleepy Landing): A peaceful ladning where the world becomes quiet, the tone slows down, the atmosphere becomes cozy. The purpose is to physically prime the child's nervous system for sleep.

Write the full story now:
".

(** The instruction composed by [judge_story] (lines 222-283). *)
Definition judge_story_prompt (story : string) (age : Z) (length_minutes : float) (target_words : Z) : string :=
  "
You are a strict, detail-oriented safety and quality classifier for children's bedtime stories.
Your job is to evaluate whether a story is fully safe, age-appropriate, calming, and emotionally
supportive for a child who is " ++
  str_of_int age ++
  " years old (between 5 and 10).

The story should take about " ++
  format_1f length_minutes ++
  " minutes to read aloud (~" ++
  str_of_int target_words ++
  " words).

Evaluate the story according to the following clearly-defined metrics.
For each category, provide a score from 1–10 (higher = safer / better / more appropriate).

SAFETY & QUALITY METRICS:

1. age_appropriateness
   - Is the language, theme, and content suitable for ages 5–10?

2. violence_safety
   - No harm, danger, threats, weapons, physical conflict, or injuries.

3. fear_safety
   - No scary imagery, dark tension, frightening creatures, or anxiety-inducing scenes.

4. medical_safety
   - No medical advice, diagnoses, procedures, or descriptions of illness/injury.

5. emotional_tone
   - Calm, gentle, reassuring emotional atmosphere.

6. language_complexity
   - Simple vocabulary, short sentences, concrete imagery appropriate for ages 5–10.

7. social_safety
   - No bullying, humiliation, exclusion, stereotypes, or harmful interpersonal behavior.

8. real_world_safety
   - No encouragement of unsafe behaviors (wandering alone at night, climbing dangerous places).

9. sensory_safety
   - Avoids overstimulating sensory descriptions (chaos, loud noises, fast danger, flashing lights).

10. moral_clarity
    - The story reinforces positive social-emotional lessons suitable for young children.

11. ending_serenity
    - Ends with a peaceful, calming image appropriate for bedtime.

12. length_match
    - Does the story roughly match the intended length (~" ++
  str_of_int target_words ++
  " words ±20%)?

RETURN FORMAT:

A. A list of scores (1–10) for each metric in the order above.
B. A short bullet list of specific improvements to make the story:
   - clearer,
   - more soothing,
   - safer across all metrics,
   - and closer to the intended length (if needed).

Do NOT rewrite the story; only critique it.

STORY TO EVALUATE:
" ++
  dq3 ++
  story ++
  dq3 ++
  "
".

(** The instruction composed by [revise_story] (lines 294-336). *)
Definition revise_story_prompt (original_story judge_feedback : string) (age : Z) (length_minutes : float) (target_words : Z) : string :=
  "
You are a strict safety censor and story repair specialist for children's bedtime stories.

Your job is to REMOVE any unsafe, inappropriate, overstimulating, frightening,
medically inappropriate, socially harmful, or age-inappropriate content flagged
by the judge, and REWRITE the story so it is fully safe, calming, and suitable
for a child who is " ++
  str_of_int age ++
  " years old (ages 5–10).

The story should be about " ++
  format_1f length_minutes ++
  " minutes (~" ++
  str_of_int target_words ++
  " words).

You must treat the judge feedback as authoritative safety requirements.

JUDGE FEEDBACK (must be fully addressed):
" ++
  dq3 ++
  judge_feedback ++
  dq3 ++
  "

ORIGINAL STORY:
" ++
  dq3 ++
  original_story ++
  dq3 ++
  "

YOUR TASK:
- Strictly censor ALL content identified as unsafe or inappropriate by the judge.
- Delete unsafe scenes entirely, not partially.
- Rewrite missing or removed sections so the story still flows smoothly and logically.
- Maintain a calm, soothing emotional tone throughout.
- Keep the story clearly appropriate for ages 5–10.
- Ensure there is:
  - NO violence or harm,
  - NO fear or frightening imagery,
  - NO unsafe real-world behaviors,
  - NO medical advice, illness, or injuries,
  - NO bullying or negative social behavior,
  - NO sensory overstimulation,
  - NO complex adult concepts.
- Replace unsafe elements with soft, gentle, friendly, or magical alternatives.
- Preserve the overall plot intent WITHOUT preserving unsafe details.
- End the story with a peaceful, comforting bedtime-appropriate moment.
- Aim for the target length (~" ++
  str_of_int target_words ++
  " words).

OUTPUT INSTRUCTIONS:
Write the FULLY REVISED STORY below, containing ONLY safe, calm,
emotionally warm content suitable for a bedtime story for ages 5–10.

Do NOT explain your changes. Do NOT include notes. ONLY output the revised story.
".

(** The instruction composed by [apply_user_feedback] (lines 347-364). *)
Definition apply_user_feedback_prompt (current_story feedback : string) (age : Z) (length_minutes : float) (target_words : Z) : string :=
  "
You will refine a children's bedtime story based on user feedback.

Child age: " ++
  str_of_int age ++
  " (between 5 and 10)
Target: " ++
  format_1f length_minutes ++
  " minutes (~" ++
  str_of_int target_words ++
  " words).

Current story:
" ++
  dq3 ++
  current_story ++
  dq3 ++
  "

User feedback:
" ++
  dq3 ++
  feedback ++
  dq3 ++
  "

Revise the story to incorporate the feedback in an age-appropriate way.
Do not add anything scary, violent, or medically inappropriate.
Keep the story approximately the same length (around " ++
  str_of_int target_words ++
  " words, ±20%).

Write the final story:
".

(** [classify_moral_safety] (lines 100-133). *)
Definition classify_moral_safety (moral : string) (age : Z) : M bool :=
  reply <- call_model (classify_moral_safety_prompt moral age)
             (Some 5) (Some zero) ;;
  let result := upper (strip reply) in
  ret (startswith result "SAFE").

(** [select_moral] (lines 136-155): the selected moral, the [overridden]
    flag and the original moral ([None] unless overridden). *)
Definition select_moral (user_moral : string) (age : Z)
    : M (string * bool * option string) :=
  if negb (truthy user_moral) then
    chosen <- random_choice SAFE_MORALS ;;
    ret (chosen, false, None)
  else
    is_safe <- classify_moral_safety user_moral age ;;
    if is_safe then ret (user_moral, false, None)
    else
      safe_moral <- random_choice SAFE_MORALS ;;
      ret (safe_moral, true, Some user_moral).

(* ================================================================== *)
(** ** The four stages that write and judge the story *)
(* ================================================================== *)

(** [generate_story] (lines 161-213). *)
Definition generate_story (request : string) (age : Z) (category : string)
    (length_minutes : float) (moral : string) : M string :=
  target_words <- lift (estimate_word_target length_minutes) ;;
  call_model
    (generate_story_prompt request age category length_minutes moral target_words)
    (Some 3000) (Some (decimal 35 100)).

(** [judge_story] (lines 219-285): [max_tokens] is left to its default. *)
Definition judge_story (story : string) (age : Z) (length_minutes : float)
    : M string :=
  target_words <- lift (estimate_word_target length_minutes) ;;
  call_model (judge_story_prompt story age length_minutes target_words)
    None (Some (decimal 2 10)).

(** [revise_story] (lines 291-338). *)
Definition revise_story (original_story judge_feedback : string) (age : Z)
    (length_minutes : float) : M string :=
  target_words <- lift (estimate_word_target length_minutes) ;;
  call_model
    (revise_story_prompt original_story judge_feedback age length_minutes target_words)
    (Some 3000) (Some (decimal 35 100)).

(** [apply_user_feedback] (lines 344-365). *)
Definition apply_user_feedback (current_story feedback : string) (age : Z)
    (length_minutes : float) : M string :=
  target_words <- lift (estimate_word_target length_minutes) ;;
  call_model
    (apply_user_feedback_prompt current_story feedback age length_minutes target_words)
    (Some 3000) (Some (decimal 4 10)).

(* ================================================================== *)
(** ** The operator boundary and the main flow *)
(* ================================================================== *)

(** The builtins the command-line flow applies to what the operator types.
    They are parameters of the model: [py_int s] is [int(s)] and
    [py_float s] is [float(s)], [None] standing for [ValueError];
    [py_repr s] is [repr(s)]. A float that [float(s)] returns is a
    well-formed binary64 value. *)
Class Builtins : Type := {
  py_int : string -> option Z;
  py_float : string -> option {x : float | valid x = true};
  py_repr : string -> string
}.

(** A [while True] loop around one [input]: every round writes the prompt
    and reads a line; [check] returns the accepted value, or the message
    printed before the next round. The loop ends with [EOFError] when the
    input runs out. The result carries the lines left and what was
    written. *)
Fixpoint reprompt {A : Type} (prompt : string) (check : string -> A + string)
    (lines : list string) : outcome A * list string * list string :=
  match lines with
  | [] => (Raise EOFError, [], [prompt])
  | line :: rest =>
      match check line with
      | inl a => (Ok a, rest, [prompt])
      | inr msg =>
          let '(r, rest', out) := reprompt prompt check rest in
          (r, rest', prompt :: (msg ++ nl) :: out)
      end
  end.

Definition run_reprompt {A : Type} (prompt : string)
    (check : string -> A + string) : M A :=
  fun w =>
    let '(r, rest, out) := reprompt prompt check (stdin w) in
    (r, set_io w rest (stdout w ++ out)).

Section OperatorBoundary.

Context {B : Builtins}.

(** The body of the loop of [ask_for_age] (lines 374-382). *)
Definition check_age (line : string) : Z + string :=
  let raw := strip line in
  match py_int raw with
  | Some age =>
      if (5 <=? age) && (age <=? 10) then inl age
      else inr "Please enter a number between 5 and 10."
  | None => inr "Please enter a valid number."
  end.

(** [ask_for_age] (lines 371-382). *)
Definition ask_for_age : M Z :=
  run_reprompt "How old is the child? (5–10): " check_age.

(** The body of the loop of [ask_for_length_minutes] (lines 38-46). *)
Definition check_length_minutes (line : string) : float + string :=
  let raw := strip line in
  match py_float raw with
  | Some (exist _ minutes _) =>
      if leb (of_int 5) minutes && leb minutes (of_int 20) then inl minutes
      else inr "Please enter a number between 5 and 20."
  | None => inr "Please enter a valid number (e.g., 5, 7.5, 12, 19.2)."
  end.

(** [ask_for_length_minutes] (lines 35-46). *)
Definition ask_for_length_minutes : M float :=
  run_reprompt "How long should the story be? (5–20 minutes): "
    check_length_minutes.

(** [ask_for_moral] (lines 88-97). *)
Definition ask_for_moral : M string :=
  moral <- input ("Optional: Is there a specific moral or lesson you want the child to learn? "
                  ++ "(Press Enter to skip): ") ;;
  ret (strip moral).

(** [repr] of a value that is a string or [None]. *)
Definition repr_opt (o : option string) : string :=
  match o with
  | Some s => py_repr s
  | None => "None"
  end.

(** [main], lines 389-423: the operator's answers, the moral, and the
    stages up to the revised story. Returns the revised story with the age
    and the duration the last step needs. *)
Definition main_stages : M (string * Z * float) :=
  print "=== Hippocratic AI Bedtime Story Engine ===" ;;
  age <- ask_for_age ;;
  length_minutes <- ask_for_length_minutes ;;
  user_request <- input "What kind of story would you like? " ;;
  user_moral <- ask_for_moral ;;
  '(selected_moral, overridden, original_moral) <- select_moral user_moral age ;;
  (if overridden : bool then
     print (nl ++ "[DISCLAIMER]") ;;
     print ("The requested moral/lesson was deemed unsafe or inappropriate for ages 5–10."
            ++ nl ++ "A safe, age-appropriate moral was selected at random instead.") ;;
     print ("Original requested moral: " ++ repr_opt original_moral) ;;
     print ("Using safe moral instead: " ++ py_repr selected_moral ++ nl)
   else
     print (nl ++ "Using moral: " ++ py_repr selected_moral ++ nl)) ;;
  let category := categorize_request user_request in
  draft <- generate_story user_request age category length_minutes selected_moral ;;
  print (nl ++ "--- FIRST DRAFT ---" ++ nl) ;;
  print draft ;;
  feedback <- judge_story draft age length_minutes ;;
  print (nl ++ "--- SAFETY CLASSIFIER FEEDBACK ---" ++ nl) ;;
  print feedback ;;
  revised <- revise_story draft feedback age length_minutes ;;
  print (nl ++ "--- REVISED STORY ---" ++ nl) ;;
  print revised ;;
  ret (revised, age, length_minutes).

(** [main], lines 425-434: the optional refinement. Returns the text
    printed under the FINAL STORY header. *)
Definition main_refine (revised : string) (age : Z) (length_minutes : float)
    : M string :=
  notes <- input (nl ++ "Would you like any changes? ") ;;
  let user_notes := strip notes in
  if truthy user_notes then
    final_story <- apply_user_feedback revised user_notes age length_minutes ;;
    print (nl ++ "--- FINAL STORY ---" ++ nl) ;;
    print final_story ;;
    ret final_story
  else
    print (nl ++ "--- FINAL STORY ---" ++ nl) ;;
    print revised ;;
    ret revised.

(** [main] (lines 388-434). *)
Definition main : M unit :=
  '(revised, age, length_minutes) <- main_stages ;;
  main_refine revised age length_minutes ;;
  ret tt.

End OperatorBoundary.

(* ================================================================== *)
(** ** Vocabulary of the specification *)
(* ================================================================== *)






(** The requests a computation adds to the log when run in [w]. *)
Definition issued {A : Type} (c : M A) (w : World) : list ChatRequest :=
  skipn (List.length (sent w)) (sent (snd (c w))).

(** The request [call_model] builds from its arguments. *)
Definition chat_request (prompt : string) (max_tokens : Z)
    (temperature : float) : ChatRequest :=
  mkRequest "gpt-3.5-turbo" prompt false max_tokens temperature.

(** The request of the safety classification. *)
Definition classify_request (moral : string) (age : Z) : ChatRequest :=
  chat_request (classify_moral_safety_prompt moral age) 5 zero.

(** The message of the configuration error. *)
Definition missing_key_error : exn :=
  RuntimeError "Please set the OPENAI_API_KEY environment variable.".

(** The test [classify_moral_safety] applies to the reply of the service. *)
Definition accepted_as_safe (reply : string) : bool :=
  startswith (upper (strip reply)) "SAFE".

(** The call sites of the service, as section 6 of the specification lists
    them, with the token budget and the temperature it gives for each. *)
Inductive Stage : Type :=
| SafetyClassification
| Generator
| Judge
| Reviser
| FeedbackApplier.

Inductive Budget : Type :=
| Tokens (n : Z)
| Unbounded.

Definition spec_budget (s : Stage) : Budget :=
  match s with
  | SafetyClassification => Tokens 5
  | Generator => Tokens 3000
  | Judge => Unbounded
  | Reviser => Tokens 3000
  | FeedbackApplier => Tokens 3000
  end.

Definition spec_temperature (s : Stage) : float :=
  match s with
  | SafetyClassification => zero
  | Generator => decimal 35 100
  | Judge => decimal 2 10
  | Reviser => decimal 35 100
  | FeedbackApplier => decimal 4 10
  end.

(** The budget a request carries: [call_model] always sends one. *)
Definition budget_of (rq : ChatRequest) : Budget := Tokens (rq_max_tokens rq).

(** The twelve metrics of the Judge, in the order of the specification. *)
Definition METRICS : list string := [
  "age_appropriateness"; "violence_safety"; "fear_safety"; "medical_safety";
  "emotional_tone"; "language_complexity"; "social_safety";
  "real_world_safety"; "sensory_safety"; "moral_clarity"; "ending_serenity";
  "length_match"
].

(** The items of a list numbered from [k]: ["1. first"; "2. second"; ...]. *)
Fixpoint numbered (k : Z) (names : list string) : list string :=
  match names with
  | [] => []
  | name :: rest => (str_of_int k ++ ". " ++ name) :: numbered (k + 1) rest
  end.

(** The fragments occur in [s] one after the other, without overlap. *)
Fixpoint occur_in_order (frags : list string) (s : string) : Prop :=
  match frags with
  | [] => True
  | f :: rest => exists pre post, s = pre ++ f ++ post /\ occur_in_order rest post
  end.

(** What follows [p] in [s], when [s] starts with [p]. *)
Fixpoint drop_prefix (p s : string) : option string :=
  match p with
  | EmptyString => Some s
  | String a p' =>
      match s with
      | EmptyString => None
      | String b s' => if Ascii.eqb a b then drop_prefix p' s' else None
      end
  end.

(** What is left of [text] after the first occurrence of [kw], if any. *)
Fixpoint after_first (kw text : string) : option string :=
  match drop_prefix kw text with
  | Some post => Some post
  | None =>
      match text with
      | EmptyString => None
      | String _ t => after_first kw t
      end
  end.

(** A decision procedure for [occur_in_order]: leftmost matches. *)
Fixpoint scan_in_order (frags : list string) (s : string) : bool :=
  match frags with
  | [] => true
  | f :: rest =>
      match after_first f s with
      | Some post => scan_in_order rest post
      | None => false
      end
  end.

(** What the Judge's instruction must carry, in this order: the request for
    a score from 1 to 10 per category, the twelve metrics numbered by name,
    the two parts of the return format, and the ban on rewriting. *)
Definition JUDGE_SCORES : list string :=
  "For each category, provide a score from 1–10" :: numbered 1 METRICS.

Definition JUDGE_RETURN : list string := [
  "A. A list of scores (1–10) for each metric in the order above.";
  "B. A short bullet list of specific improvements";
  "Do NOT rewrite the story; only critique it."
].

Definition JUDGE_FRAGMENTS : list string := (JUDGE_SCORES ++ JUDGE_RETURN)%list.

(* ================================================================== *)
(** ** Runs without a credential *)
(* ================================================================== *)

(** A condition on outcomes: [P] on a result, [E] on an exception. *)
Definition post {A : Type} (P : A -> Prop) (E : exn -> Prop) (r : outcome A) : Prop :=
  match r with
  | Ok a => P a
  | Raise e => E e
  end.

(** [c] run without a credential sends nothing, leaves the credential as
    it is, and ends as [Q] says. *)
Definition offline {A : Type} (c : M A) (Q : outcome A -> Prop) : Prop :=
  forall w, key_missing (api_key_env w) = true ->
    sent (snd (c w)) = sent w
    /\ api_key_env (snd (c w)) = api_key_env w
    /\ Q (fst (c w)).

(** The two ways a run without a credential can end. *)
Definition config_or_eof (e : exn) : Prop :=
  e = missing_key_error \/ e = EOFError.

(* ================================================================== *)
(** ** Worlds and builtins for the examples *)
(* ================================================================== *)

(** A service that answers its n-th request with the n-th scripted reply. *)
Definition scripted (replies : list string)
    : list ChatRequest -> ChatRequest -> outcome string :=
  fun past _ =>
    match nth_error replies (List.length past) with
    | Some r => Ok r
    | None => Raise (ServiceError "no reply scripted")
    end.

(** A fresh run: a credential or none, scripted replies, the lines the
    operator types, a random tape that always draws [draw]. *)
Definition world_of (key : option string) (replies lines : list string)
    (draw : nat) : World :=
  mkWorld key (scripted replies) [] lines [] (fun _ => draw) 0%nat.

(** The value of a string of decimal digits. *)
Fixpoint digits_value (s : string) (acc : Z) : option Z :=
  match s with
  | EmptyString => Some acc
  | String c t =>
      let n := Z.of_nat (nat_of_ascii c) in
      if (48 <=? n) && (n <=? 57) then digits_value t (10 * acc + (n - 48))
      else None
  end.

Definition int_of_digits (s : string) : option Z :=
  match s with
  | EmptyString => None
  | _ => digits_value s 0
  end.

(** A float, when it is a well-formed binary64 value. *)
Definition checked (x : float) : option {x : float | valid x = true} :=
  match valid x as b return valid x = b -> option {x : float | valid x = true} with
  | true => fun H => Some (exist _ x H)
  | false => fun _ => None
  end eq_refl.

(** The digits before and after the first point of a numeral. *)
Fixpoint split_point (s : string) : string * option string :=
  match s with
  | EmptyString => (EmptyString, None)
  | String c t =>
      if Ascii.eqb c "."%char then (EmptyString, Some t)
      else let '(whole, frac) := split_point t in (String c whole, frac)
  end.

(** The float of a numeral [digits] or [digits.digits]. *)
Definition float_of_numeral (s : string) : option {x : float | valid x = true} :=
  match split_point s with
  | (whole, None) =>
      match int_of_digits whole with
      | Some n => checked (of_int n)
      | None => None
      end
  | (whole, Some frac) =>
      match int_of_digits (whole ++ frac), int_of_digits whole, int_of_digits frac with
      | Some n, Some _, Some _ =>
          checked (decimal n (10 ^ Z.of_nat (String.length frac)))
      | _, _, _ => None
      end
  end.

(** The builtins on the fragment the examples use: [int] of a plain string
    of digits, [float] of a short numeral with at most one point (anything
    else is rejected here), [repr] of a string with no quote, backslash or
    control character in it. *)
Instance digit_builtins : Builtins := {
  py_int := int_of_digits;
  py_float := float_of_numeral;
  py_repr := fun s => "'" ++ s ++ "'"
}.

(* ================================================================== *)
(** * Properties *)
(* ================================================================== *)

(** ** Sample evaluations *)

Example categorize_doctor_farm :
  categorize_request "a doctor visits a farm" = "medical_comfort".
Proof. reflexivity. Qed.

Example str_of_int_samples :
  str_of_int 0 = "0" /\ str_of_int 7 = "7" /\ str_of_int 1500 = "1500"
  /\ str_of_int (-12) = "-12".
Proof. repeat split; reflexivity. Qed.

Example strip_samples :
  strip "  safe-ish
 " = "safe-ish" /\ strip "   " = "" /\ upper (strip " Safe. ") = "SAFE.".
Proof. repeat split; reflexivity. Qed.

Example format_1f_samples :
  format_1f (of_int 10) = "10.0" /\ format_1f (decimal 192 10) = "19.2"
  /\ format_1f (decimal 725 100) = "7.2" /\ format_1f (decimal 75 10) = "7.5"
  /\ format_1f (decimal (-5) 100) = "-0.1" /\ format_1f (decimal 1995 100) = "19.9".
Proof. repeat split; vm_compute; reflexivity. Qed.

Example estimate_samples :
  estimate_word_target (of_int 10) = Ok 1500
  /\ estimate_word_target (decimal 192 10) = Ok 2880
  /\ estimate_word_target (decimal 502 100) = Ok 752
  /\ estimate_word_target (decimal 5125 1000) = Ok 768.
Proof. repeat split; vm_compute; reflexivity. Qed.

(* ------------------------------------------------------------------ *)
(** ** Strings and the request categorizer *)





Lemma lower_char_idem (c : ascii) : lower_char (lower_char c) = lower_char c.
Proof. destruct c as [[] [] [] [] [] [] [] []]; reflexivity. Qed.

Lemma lower_idem (s : string) : lower (lower s) = lower s.
Proof.
  unfold lower. induction s; simpl; [reflexivity|].
  now rewrite lower_char_idem, IHs.
Qed.

Lemma lower_upper_char (c : ascii) : lower_char (upper_char c) = lower_char c.
Proof. destruct c as [[] [] [] [] [] [] [] []]; reflexivity. Qed.

Lemma lower_upper (s : string) : lower (upper s) = lower s.
Proof.
  unfold lower, upper. induction s; simpl; [reflexivity|].
  now rewrite lower_upper_char, IHs.
Qed.





(* ------------------------------------------------------------------ *)
(** ** Binary64 products and the length estimator *)

Lemma Zdigits2_log2 (p : positive) :
  Zpos (digits2_pos p) = Z.log2 (Zpos p) + 1.
Proof.
  assert (H : forall q, digits2_pos q = Pos.size q)
    by (induction q; simpl; congruence).
  destruct p; simpl; rewrite ?H; lia.
Qed.

Lemma Zdigits2_le (n b : Z) : 0 <= n < 2 ^ b -> 0 <= b -> Zdigits2 n <= b.
Proof.
  intros [H0 H1] Hb. destruct n as [|p|p]; simpl; try lia.
  rewrite Zdigits2_log2.
  assert (Z.log2 (Zpos p) < b) by (apply Z.log2_lt_pow2; lia). lia.
Qed.

Lemma iter_pos_inv {A : Type} (P : A -> Prop) (f : A -> A) :
  (forall x, P x -> P (f x)) -> forall p x, P x -> P (iter_pos f p x).
Proof.
  intros Hf. induction p; intros x Hx; simpl; auto.
Qed.

Lemma shr_1_bounds (M : Z) (r : shr_record) :
  0 <= shr_m r <= M -> 0 <= shr_m (shr_1 r) <= M.
Proof.
  destruct r as [m rb sb]. simpl.
  destruct m as [|[p|p|]|p]; simpl; lia.
Qed.

Lemma shr_bounds (r : shr_record) (e n : Z) :
  0 <= shr_m r ->
  0 <= shr_m (fst (shr r e n)) <= shr_m r /\
  snd (shr r e n) = e + Z.max 0 n.
Proof.
  intros H. destruct n as [|p|p]; simpl.
  - split; lia.
  - split; [|lia].
    apply (iter_pos_inv (fun x => 0 <= shr_m x <= shr_m r)); [|lia].
    intros x. apply shr_1_bounds.
  - split; lia.
Qed.

Lemma shr_record_of_loc_m m l : shr_m (shr_record_of_loc m l) = m.
Proof. destruct l as [|[]]; reflexivity. Qed.

Lemma shr_fexp_bounds (m e b : Z) (l : location) :
  0 <= m < 2 ^ b -> 0 <= b ->
  0 <= shr_m (fst (shr_fexp prec emax m e l)) <= m /\
  snd (shr_fexp prec emax m e l) <= Z.max e (Z.max (b + e - 53) (-1074)).
Proof.
  intros Hm Hb. unfold shr_fexp.
  pose proof (Zdigits2_le m b Hm Hb) as Hd.
  destruct (shr_bounds (shr_record_of_loc m l) e
              (fexp prec emax (Zdigits2 m + e) - e)) as [H1 H2].
  { rewrite shr_record_of_loc_m. lia. }
  rewrite shr_record_of_loc_m in H1. split; [exact H1|].
  rewrite H2. unfold fexp, emin, prec, emax. lia.
Qed.

Lemma round_nearest_even_bounds m l :
  0 <= m -> m <= round_nearest_even m l <= m + 1.
Proof.
  intros H. destruct l as [|[]]; simpl; try lia.
  destruct (Z.even m); lia.
Qed.

(** Rounding a positive integer of at most 106 bits at a small exponent
    never overflows: the result is a zero or a finite number of the given
    sign. *)
Lemma binary_round_aux_finite (sx : bool) (mx ex : Z) :
  0 <= mx < 2 ^ 106 -> ex <= -93 ->
  binary_round_aux prec emax sx mx ex loc_Exact = S754_zero sx \/
  exists m e, binary_round_aux prec emax sx mx ex loc_Exact = S754_finite sx m e.
Proof.
  intros Hm He. unfold binary_round_aux.
  destruct (shr_fexp_bounds mx ex 106 loc_Exact Hm ltac:(lia)) as [H1 H2].
  destruct (shr_fexp prec emax mx ex loc_Exact) as [mrs' e']. cbn [fst snd] in H1, H2.
  pose proof (round_nearest_even_bounds (shr_m mrs') (loc_of_shr_record mrs')
                ltac:(lia)) as H3.
  set (m2 := round_nearest_even (shr_m mrs') (loc_of_shr_record mrs')) in *.
  assert (Hm2 : 0 <= m2 < 2 ^ 107).
  { change (2 ^ 107) with (2 * 2 ^ 106). lia. }
  destruct (shr_fexp_bounds m2 e' 107 loc_Exact Hm2 ltac:(lia)) as [H4 H5].
  destruct (shr_fexp prec emax m2 e' loc_Exact) as [mrs'' e'']. cbn [fst snd] in H4, H5.
  destruct (shr_m mrs'') as [|p|p].
  - now left.
  - right. replace (e'' <=? emax - prec) with true.
    + eauto.
    + symmetry. apply Z.leb_le. unfold emax, prec. lia.
  - lia.
Qed.

Lemma leb_5_20_shape (d : float) :
  valid d = true -> leb (of_int 5) d = true -> leb d (of_int 20) = true ->
  exists m e, d = S754_finite false m e /\ -50 <= e <= -48 /\ Zpos m < 2 ^ 53.
Proof.
  intros Hv H5 H20.
  destruct d as [s|s|  |s m e]; try (destruct s; discriminate).
  - discriminate.
  - change (of_int 5) with (S754_finite false 5629499534213120 (-50)) in H5.
    change (of_int 20) with (S754_finite false 5629499534213120 (-48)) in H20.
    unfold leb, SFleb, SFcompare in H5, H20.
    destruct s; [discriminate|].
    exists m, e. split; [reflexivity|].
    assert (He : -50 <= e <= -48).
    { destruct (Z.compare_spec (-50) e); destruct (Z.compare_spec e (-48));
        try discriminate; lia. }
    split; [exact He|].
    unfold valid, valid_binary, bounded, canonical_mantissa in Hv.
    apply andb_prop in Hv. destruct Hv as [Hc _].
    apply Z.eqb_eq in Hc. unfold fexp, emin, prec, emax in Hc.
    rewrite Zdigits2_log2 in Hc.
    apply Z.log2_lt_pow2; lia.
Qed.

Lemma to_int_floor_nonneg (x : float) :
  (x = S754_zero false \/ exists m e, x = S754_finite false m e) ->
  to_int x = Ok (Qfloor (to_Q x)).
Proof.
  intros [->|(m & e & ->)]; [reflexivity|].
  unfold to_int, to_Q. f_equal. destruct e as [|k|k]; simpl cond_Zopp.
  - symmetry. apply Qfloor_Z.
  - symmetry. apply Qfloor_Z.
  - unfold Qfloor. apply Z.quot_div_nonneg; lia.
Qed.

Lemma mul_150_finite (d : float) :
  valid d = true -> leb (of_int 5) d = true -> leb d (of_int 20) = true ->
  mul d (of_int 150) = S754_zero false \/
  exists m e, mul d (of_int 150) = S754_finite false m e.
Proof.
  intros Hv H5 H20.
  destruct (leb_5_20_shape d Hv H5 H20) as (m & e & -> & He & Hm).
  change (of_int 150) with (S754_finite false 5277655813324800 (-45)).
  unfold mul, SFmul. simpl xorb.
  apply binary_round_aux_finite; [|lia].
  rewrite Pos2Z.inj_mul.
  assert (Zpos 5277655813324800 < 2 ^ 53) by reflexivity.
  change (2 ^ 106) with (2 ^ 53 * 2 ^ 53). nia.
Qed.




(** The binary64 product is the rounded one: for the float nearest to 19.2
    it is exactly 2880, although that float lies below 19.2 and its exact
    product with 150 lies below 2880. *)
Remark estimate_word_target_rounded_product :
  estimate_word_target (decimal 192 10) = Ok 2880
  /\ Qfloor (to_Q (decimal 192 10) * 150) = 2879.
Proof. split; vm_compute; reflexivity. Qed.






(* ------------------------------------------------------------------ *)
(** ** The service wrapper and the moral selector *)

Lemma bind_ok {A B : Type} (c : M A) (k : A -> M B) (w w' : World) (a : A) :
  c w = (Ok a, w') -> bind c k w = k a w'.
Proof. intros H. unfold bind. now rewrite H. Qed.

Lemma bind_raise {A B : Type} (c : M A) (k : A -> M B) (w w' : World) (e : exn) :
  c w = (Raise e, w') -> bind c k w = (Raise e, w').
Proof. intros H. unfold bind. now rewrite H. Qed.

Lemma call_model_missing (prompt : string) (mt : option Z) (t : option float)
    (w : World) :
  key_missing (api_key_env w) = true ->
  call_model prompt mt t w = (Raise missing_key_error, w).
Proof. intros H. unfold call_model. now rewrite H. Qed.

Lemma call_model_present (prompt : string) (mt : option Z) (t : option float)
    (w : World) :
  key_missing (api_key_env w) = false ->
  let rq := chat_request prompt
              (match mt with Some n => n | None => 1500 end)
              (match t with Some x => x | None => decimal 4 10 end) in
  call_model prompt mt t w = (service w (sent w) rq, set_sent w (sent w ++ [rq])).
Proof. intros H. unfold call_model. now rewrite H. Qed.

Lemma issued_app (A : Type) (c : M A) (w : World) (l : list ChatRequest) :
  sent (snd (c w)) = (sent w ++ l)%list -> issued c w = l.
Proof.
  intros H. unfold issued. rewrite H.
  rewrite skipn_app, Nat.sub_diag, skipn_all. reflexivity.
Qed.

(* ---- SAFE_MORALS ---- *)

Lemma SAFE_MORALS_length : List.length SAFE_MORALS = 10%nat.
Proof. reflexivity. Qed.

Lemma SAFE_MORALS_NoDup : NoDup SAFE_MORALS.
Proof.
  unfold SAFE_MORALS.
  repeat (constructor; [simpl; intuition discriminate|]). constructor.
Qed.

Lemma SAFE_MORALS_truthy (m : string) : In m SAFE_MORALS -> m <> "".
Proof. simpl. intuition (subst; discriminate). Qed.

Lemma random_choice_pool (w : World) :
  exists chosen,
    random_choice SAFE_MORALS w = (Ok chosen, set_rng_used w (S (rng_used w)))
    /\ chosen = nth (rng w (rng_used w) mod 10)%nat SAFE_MORALS ""
    /\ In chosen SAFE_MORALS.
Proof.
  eexists. split; [reflexivity|]. split.
  - apply nth_indep. rewrite SAFE_MORALS_length. apply Nat.mod_upper_bound. lia.
  - apply nth_In. rewrite SAFE_MORALS_length. apply Nat.mod_upper_bound. lia.
Qed.

Lemma classify_moral_safety_run (moral : string) (age : Z) (w : World) :
  key_missing (api_key_env w) = false ->
  classify_moral_safety moral age w =
  (match service w (sent w) (classify_request moral age) with
   | Ok reply => Ok (accepted_as_safe reply)
   | Raise e => Raise e
   end,
   set_sent w (sent w ++ [classify_request moral age])).
Proof.
  intros Hk. unfold classify_moral_safety, bind.
  rewrite (call_model_present _ _ _ w Hk). cbn zeta.
  fold (classify_request moral age).
  destruct (service w (sent w) (classify_request moral age)); reflexivity.
Qed.

Lemma select_moral_nonempty (user_moral : string) (age : Z) :
  user_moral <> "" ->
  select_moral user_moral age =
  (is_safe <- classify_moral_safety user_moral age ;;
   if is_safe then ret (user_moral, false, None)
   else
     (safe_moral <- random_choice SAFE_MORALS ;;
      ret (safe_moral, true, Some user_moral))).
Proof. intros H. unfold select_moral. destruct user_moral; [contradiction|reflexivity]. Qed.


Lemma select_moral_classified (user_moral : string) (age : Z) (w : World)
    (reply : string) :
  user_moral <> "" ->
  key_missing (api_key_env w) = false ->
  service w (sent w) (classify_request user_moral age) = Ok reply ->
  let w1 := set_sent w (sent w ++ [classify_request user_moral age]) in
  (accepted_as_safe reply = true ->
   select_moral user_moral age w = (Ok (user_moral, false, None), w1)) /\
  (accepted_as_safe reply = false ->
   exists safe_moral,
     In safe_moral SAFE_MORALS /\
     select_moral user_moral age w =
     (Ok (safe_moral, true, Some user_moral), set_rng_used w1 (S (rng_used w)))).
Proof.
  intros Hne Hk Hs w1.
  assert (Hrun : classify_moral_safety user_moral age w =
                 (Ok (accepted_as_safe reply), w1)).
  { rewrite (classify_moral_safety_run _ _ _ Hk), Hs. reflexivity. }
  rewrite (select_moral_nonempty _ _ Hne). split.
  - intros Ha. rewrite (bind_ok _ _ _ _ _ Hrun), Ha. reflexivity.
  - intros Ha. rewrite (bind_ok _ _ _ _ _ Hrun), Ha.
    destruct (random_choice_pool w1) as (chosen & Hc & _ & Hin).
    exists chosen. split; [exact Hin|].
    rewrite (bind_ok _ _ _ _ _ Hc). reflexivity.
Qed.

Lemma select_moral_on_empty (age : Z) (w : World) :
  let chosen := nth (rng w (rng_used w) mod 10)%nat SAFE_MORALS "" in
  select_moral "" age w =
    (Ok (chosen, false, None), set_rng_used w (S (rng_used w)))
  /\ In chosen SAFE_MORALS.
Proof.
  intros chosen.
  destruct (random_choice_pool w) as (c & Hc & Heq & Hin).
  fold chosen in Heq. subst c. split; [|exact Hin].
  unfold select_moral. cbn [truthy negb].
  rewrite (bind_ok _ _ _ _ _ Hc). reflexivity.
Qed.




(** C5. With an empty user moral [select_moral] returns, for any age, a
    moral of the pool at the index the random generator draws below ten,
    not overridden and with no original; it sends nothing to the service.
    The pool has ten distinct entries, so each is chosen by exactly one of
    the ten indices. *)
Theorem select_moral_empty (age : Z) (w : World) :
  let chosen := nth (rng w (rng_used w) mod 10)%nat SAFE_MORALS "" in
  select_moral "" age w =
    (Ok (chosen, false, None), set_rng_used w (S (rng_used w)))
  /\ In chosen SAFE_MORALS
  /\ issued (select_moral "" age) w = []
  /\ List.length SAFE_MORALS = 10%nat
  /\ NoDup SAFE_MORALS
  /\ (forall m, In m SAFE_MORALS ->
      exists i, (i < 10)%nat /\ nth i SAFE_MORALS "" = m /\
                forall j, (j < 10)%nat -> nth j SAFE_MORALS "" = m -> j = i).
Proof.
  intros chosen.
  destruct (select_moral_on_empty age w) as [Hrun Hin]. fold chosen in Hrun, Hin.
  split; [exact Hrun|]. split; [exact Hin|]. split.
  { apply issued_app. rewrite Hrun. cbn. now rewrite app_nil_r. }
  split; [reflexivity|]. split; [exact SAFE_MORALS_NoDup|].
  intros m Hm. destruct (In_nth _ _ "" Hm) as (i & Hi & Hnth).
  rewrite SAFE_MORALS_length in Hi.
  exists i. split; [exact Hi|]. split; [exact Hnth|].
  intros j Hj Hjm.
  apply (proj1 (NoDup_nth SAFE_MORALS "") SAFE_MORALS_NoDup);
    rewrite ?SAFE_MORALS_length; congruence.
Qed.

(** C10. Whatever [select_moral] returns, the selected moral is not empty,
    it is overridden exactly when an original is present, and an original
    is the user's text and comes with a selected moral of the pool. It does
    return when the user moral is empty, or a credential is set and the
    service replies. *)
Theorem select_moral_invariant (user_moral : string) (age : Z) (w : World) :
  (forall selected overridden original w',
     select_moral user_moral age w = (Ok (selected, overridden, original), w') ->
     selected <> ""
     /\ (overridden = true <-> original <> None)
     /\ (forall o, original = Some o ->
         o = user_moral /\ In selected SAFE_MORALS))
  /\ (user_moral = ""
      \/ (key_missing (api_key_env w) = false
          /\ exists reply,
               service w (sent w) (classify_request user_moral age) = Ok reply) ->
      exists result w', select_moral user_moral age w = (Ok result, w')).
Proof.
  split.
  - intros selected overridden original w' H.
    destruct (string_dec user_moral "") as [->|Hne].
    + destruct (select_moral_on_empty age w) as (Hrun & Hin).
      rewrite Hrun in H. inversion H; subst.
      split; [now apply SAFE_MORALS_truthy|].
      split; [split; [discriminate|congruence]|]. discriminate.
    + rewrite (select_moral_nonempty _ _ Hne) in H. unfold bind in H.
      destruct (classify_moral_safety user_moral age w) as [[[]|e] w1];
        [| |discriminate].
      * inversion H; subst.
        split; [exact Hne|]. split; [split; [discriminate|congruence]|].
        discriminate.
      * destruct (random_choice_pool w1) as (c & Hc & _ & Hin).
        rewrite Hc in H. inversion H; subst.
        split; [now apply SAFE_MORALS_truthy|].
        split; [split; [discriminate|reflexivity]|].
        intros o Ho. inversion Ho. now split.
  - intros [->|(Hk & reply & Hs)].
    + destruct (select_moral_on_empty age w) as (Hrun & _). eauto.
    + destruct (string_dec user_moral "") as [->|Hne].
      * destruct (select_moral_on_empty age w) as (Hrun & _). eauto.
      * destruct (select_moral_classified _ _ _ _ Hne Hk Hs) as (H1 & H2).
        destruct (accepted_as_safe reply) eqn:E.
        -- rewrite (H1 eq_refl). eauto.
        -- destruct (H2 eq_refl) as (m & _ & ->). eauto.
Qed.

(* ------------------------------------------------------------------ *)
(** ** Runs without a credential *)

Lemma offline_bind {A B : Type} (c : M A) (k : A -> M B)
    (Q1 : outcome A -> Prop) (Q2 : outcome B -> Prop) :
  offline c Q1 ->
  (forall a, Q1 (Ok a) -> offline (k a) Q2) ->
  (forall e, Q1 (Raise e) -> Q2 (Raise e)) ->
  offline (bind c k) Q2.
Proof.
  intros Hc Hk He w Hw. specialize (Hc w Hw). unfold bind.
  destruct (c w) as [[a|e] w1]; cbn [fst snd] in *.
  - destruct Hc as (Hs & Ha & HQ).
    destruct (Hk a HQ w1) as (Hs' & Ha' & HQ'); [now rewrite Ha|].
    repeat split; congruence || exact HQ'.
  - destruct Hc as (Hs & Ha & HQ). repeat split; auto.
Qed.

Lemma offline_weaken {A : Type} (c : M A) (Q1 Q2 : outcome A -> Prop) :
  offline c Q1 -> (forall r, Q1 r -> Q2 r) -> offline c Q2.
Proof. intros H HQ w Hw. destruct (H w Hw) as (? & ? & ?). auto. Qed.

Lemma offline_ret {A : Type} (a : A) : offline (ret a) (fun r => r = Ok a).
Proof. intros w _. repeat split. Qed.

Lemma offline_print (s : string) : offline (print s) (fun r => r = Ok tt).
Proof. intros w _. repeat split. Qed.

Lemma offline_input (prompt : string) :
  offline (input prompt) (post (fun _ => True) (eq EOFError)).
Proof. intros w _. unfold input. destruct (stdin w); repeat split. Qed.

Lemma reprompt_post {A : Type} (prompt : string) (check : string -> A + string)
    (lines : list string) :
  post (fun a => exists line, check line = inl a) (eq EOFError)
    (fst (fst (reprompt prompt check lines))).
Proof.
  induction lines as [|line rest IH]; cbn [reprompt]; [reflexivity|].
  destruct (check line) as [a|msg] eqn:E; cbn; [eauto|].
  destruct (reprompt prompt check rest) as [[r rest'] out]. exact IH.
Qed.

Lemma offline_run_reprompt {A : Type} (prompt : string)
    (check : string -> A + string) :
  offline (run_reprompt prompt check)
    (post (fun a => exists line, check line = inl a) (eq EOFError)).
Proof.
  intros w _. unfold run_reprompt.
  pose proof (reprompt_post prompt check (stdin w)) as H.
  destruct (reprompt prompt check (stdin w)) as [[r rest] out].
  repeat split. exact H.
Qed.

Lemma offline_random_choice_pool :
  offline (random_choice SAFE_MORALS) (post (fun _ => True) (fun _ => False)).
Proof. intros w _. repeat split. Qed.

Lemma offline_call_model (prompt : string) (mt : option Z) (t : option float) :
  offline (call_model prompt mt t) (fun r => r = Raise missing_key_error).
Proof. intros w Hw. rewrite (call_model_missing _ _ _ _ Hw). repeat split. Qed.

Lemma offline_lift_ok {A : Type} (a : A) : offline (lift (Ok a)) (fun r => r = Ok a).
Proof. intros w _. repeat split. Qed.

Section Offline.

Context {B : Builtins}.

Lemma check_length_minutes_range (line : string) (d : float) :
  check_length_minutes line = inl d ->
  valid d = true /\ leb (of_int 5) d = true /\ leb d (of_int 20) = true.
Proof.
  unfold check_length_minutes.
  destruct (py_float (strip line)) as [[x Hx]|]; [|discriminate].
  destruct (leb (of_int 5) x) eqn:E5; [|discriminate].
  destruct (leb x (of_int 20)) eqn:E20; [|discriminate].
  intros H. inversion H. subst. auto.
Qed.

Lemma estimate_word_target_defined (d : float) :
  valid d = true -> leb (of_int 5) d = true -> leb d (of_int 20) = true ->
  exists tw, estimate_word_target d = Ok tw.
Proof.
  intros Hv H5 H20. eexists. unfold estimate_word_target.
  apply to_int_floor_nonneg. now apply mul_150_finite.
Qed.

Lemma offline_stage (d : float) (k : Z -> M string) :
  (exists tw, estimate_word_target d = Ok tw) ->
  (forall tw, offline (k tw) (fun r => r = Raise missing_key_error)) ->
  offline (tw <- lift (estimate_word_target d) ;; k tw)
    (fun r => r = Raise missing_key_error).
Proof.
  intros [tw Htw] Hk. rewrite Htw.
  eapply offline_bind; [apply offline_lift_ok| |discriminate].
  intros a _. apply Hk.
Qed.

Lemma offline_select_moral (user_moral : string) (age : Z) :
  offline (select_moral user_moral age)
    (post (fun _ => True) (eq missing_key_error)).
Proof.
  unfold select_moral. destruct (negb (truthy user_moral)).
  - eapply offline_bind; [apply offline_random_choice_pool| |contradiction].
    intros a _. eapply offline_weaken; [apply offline_ret|].
    intros r ->. exact I.
  - eapply offline_bind with (Q1 := fun r => r = Raise missing_key_error).
    + unfold classify_moral_safety.
      eapply offline_bind; [apply offline_call_model|discriminate|].
      intros e H. inversion H. reflexivity.
    + discriminate.
    + intros e H. inversion H. reflexivity.
Qed.

Lemma offline_main_stages :
  offline main_stages (post (fun _ => False) config_or_eof).
Proof.
  unfold main_stages.
  eapply offline_bind; [apply offline_print| |discriminate]. intros _ _.
  eapply offline_bind; [apply offline_run_reprompt| |].
  2: { intros e <-. now right. }
  intros age _.
  eapply offline_bind; [apply offline_run_reprompt| |].
  2: { intros e <-. now right. }
  intros d [line Hd]. apply check_length_minutes_range in Hd.
  destruct Hd as (Hv & H5 & H20).
  pose proof (estimate_word_target_defined d Hv H5 H20) as Htw.
  eapply offline_bind; [apply offline_input| |].
  2: { intros e <-. now right. }
  intros user_request _.
  eapply offline_bind with (Q1 := post (fun _ => True) (eq EOFError)).
  { unfold ask_for_moral. eapply offline_bind; [apply offline_input| |].
    - intros a _. eapply offline_weaken; [apply offline_ret|]. intros r ->. exact I.
    - intros e H. exact H. }
  2: { intros e <-. now right. }
  intros user_moral _.
  eapply offline_bind; [apply offline_select_moral| |].
  2: { intros e <-. now left. }
  intros [[selected_moral overridden] original_moral] _.
  eapply offline_bind with (Q1 := fun r => r = Ok tt).
  { destruct overridden.
    - eapply offline_bind; [apply offline_print| |discriminate]. intros _ _.
      eapply offline_bind; [apply offline_print| |discriminate]. intros _ _.
      eapply offline_bind; [apply offline_print| |discriminate]. intros _ _.
      apply offline_print.
    - apply offline_print. }
  2: discriminate.
  intros _ _.
  eapply offline_bind with (Q1 := fun r => r = Raise missing_key_error).
  { unfold generate_story. apply offline_stage; [exact Htw|].
    intros tw. apply offline_call_model. }
  - discriminate.
  - intros e H. inversion H. now left.
Qed.

Lemma offline_main : offline main (post (fun _ => False) config_or_eof).
Proof.
  unfold main.
  eapply offline_bind; [apply offline_main_stages|contradiction|].
  intros e H. exact H.
Qed.

(** C7, as the code has it. Without a credential (unset, or empty) every
    [call_model] raises the configuration error before a request is made
    and leaves the world as it was; [main] never completes, sends nothing,
    and ends with that error, or with [EOFError] when the operator's input
    runs out first. Nothing is retried. *)
Theorem missing_credential_is_fatal (w : World) :
  key_missing (api_key_env w) = true ->
  (forall prompt max_tokens temperature,
     call_model prompt max_tokens temperature w = (Raise missing_key_error, w))
  /\ exists e w',
       main w = (Raise e, w') /\ sent w' = sent w
       /\ (e = missing_key_error \/ e = EOFError).
Proof.
  intros Hw. split.
  - intros. now apply call_model_missing.
  - destruct (offline_main w Hw) as (Hs & _ & HQ).
    destruct (main w) as [[[]|e] w']; cbn [fst snd] in *; [contradiction|].
    exists e, w'. auto.
Qed.

End Offline.

Lemma missing_credential_is_fatal_witness :
  main (world_of None [] ["7"; "19.2"; "a story about a brave dog"; "Be kind"] 3)
  = (Raise missing_key_error,
     snd (main (world_of None [] ["7"; "19.2"; "a story about a brave dog"; "Be kind"] 3)))
  /\ sent (snd (main (world_of None [] ["7"; "19.2"; "a story about a brave dog"; "Be kind"] 3))) = [].
Proof.
  destruct (missing_credential_is_fatal
              (world_of None [] ["7"; "19.2"; "a story about a brave dog"; "Be kind"] 3)
              eq_refl) as (_ & e & w' & Hm & Hs & He).
  rewrite Hm. cbn [snd]. split; [|exact Hs].
  assert (E : fst (main (world_of None [] ["7"; "19.2"; "a story about a brave dog"; "Be kind"] 3))
              = Raise missing_key_error) by (vm_compute; reflexivity).
  rewrite Hm in E. cbn [fst] in E. now rewrite E.
Defined.

(** C7, as stated, fails: the error is raised by the first call of the
    service, after the operator was prompted; with an empty moral the
    moral selector has run by then, drawn from the pool and had its choice
    printed. *)
Lemma missing_credential_after_stages :
  let w := world_of None [] ["7"; "10"; "a story about a brave dog"; ""] 3 in
  fst (select_moral "" 7 w)
    = Ok ("It is okay to be afraid; courage means trying anyway.", false, None)
  /\ fst (main w) = Raise missing_key_error
  /\ rng_used (snd (main w)) = 1%nat
  /\ last (stdout (snd (main w))) ""
     = nl ++ "Using moral: 'It is okay to be afraid; courage means trying anyway.'"
          ++ nl ++ nl.
Proof. repeat split; vm_compute; reflexivity. Qed.

(* ------------------------------------------------------------------ *)
(** ** The call sites of the service *)

Lemma issued_call_model (prompt : string) (mt : option Z) (t : option float)
    (w : World) :
  key_missing (api_key_env w) = false ->
  issued (call_model prompt mt t) w =
  [chat_request prompt
     (match mt with Some n => n | None => 1500 end)
     (match t with Some x => x | None => decimal 4 10 end)].
Proof.
  intros Hk. apply issued_app. rewrite (call_model_present _ _ _ _ Hk).
  reflexivity.
Qed.

Lemma issued_classify (moral : string) (age : Z) (w : World) :
  key_missing (api_key_env w) = false ->
  issued (classify_moral_safety moral age) w = [classify_request moral age].
Proof.
  intros Hk. apply issued_app.
  rewrite (classify_moral_safety_run _ _ _ Hk). reflexivity.
Qed.

Lemma issued_stage (d : float) (tw : Z) (k : Z -> M string) (w : World) :
  estimate_word_target d = Ok tw ->
  issued (tw <- lift (estimate_word_target d) ;; k tw) w = issued (k tw) w.
Proof. intros H. unfold issued, bind, lift. now rewrite H. Qed.

(** C8, as the code has it. With a credential set and a defined word
    target, each stage makes exactly one request: the classification with
    5 tokens at temperature 0.0, the Generator with 3000 at 0.35, the Judge
    with the default budget of [call_model], 1500 tokens, at 0.2, the
    Reviser with 3000 at 0.35 and the FeedbackApplier with 3000 at 0.4. *)
Theorem call_sites_parameters (w : World) (moral request category story
    critique notes : string) (age : Z) (d : float) (tw : Z) :
  key_missing (api_key_env w) = false ->
  estimate_word_target d = Ok tw ->
  issued (classify_moral_safety moral age) w =
    [chat_request (classify_moral_safety_prompt moral age) 5 zero]
  /\ issued (generate_story request age category d moral) w =
    [chat_request (generate_story_prompt request age category d moral tw)
       3000 (decimal 35 100)]
  /\ issued (judge_story story age d) w =
    [chat_request (judge_story_prompt story age d tw) 1500 (decimal 2 10)]
  /\ issued (revise_story story critique age d) w =
    [chat_request (revise_story_prompt story critique age d tw)
       3000 (decimal 35 100)]
  /\ issued (apply_user_feedback story notes age d) w =
    [chat_request (apply_user_feedback_prompt story notes age d tw)
       3000 (decimal 4 10)].
Proof.
  intros Hk Htw. split; [now apply issued_classify|].
  unfold generate_story, judge_story, revise_story, apply_user_feedback.
  rewrite !(issued_stage d tw _ w Htw).
  rewrite !(issued_call_model _ _ _ w Hk). repeat split.
Qed.

Lemma call_sites_parameters_witness :
  issued (judge_story "Once upon a time." 7 (of_int 10))
    (world_of (Some "sk-test") ["scores"] [] 0)
  = [chat_request (judge_story_prompt "Once upon a time." 7 (of_int 10) 1500)
       1500 (decimal 2 10)].
Proof.
  apply (call_sites_parameters (world_of (Some "sk-test") ["scores"] [] 0)
           "" "" "" "Once upon a time." "" "" 7 (of_int 10) 1500).
  - reflexivity.
  - reflexivity.
Defined.

(** C8, as stated, fails for the Judge: its request is bounded, by 1500
    tokens. *)
Lemma judge_budget_is_bounded :
  map budget_of
    (issued (judge_story "Once upon a time." 7 (of_int 10))
       (world_of (Some "sk-test") ["scores"] [] 0))
  = [Tokens 1500]
  /\ spec_budget Judge = Unbounded
  /\ Tokens 1500 <> Unbounded.
Proof. split; [vm_compute; reflexivity|split; [reflexivity|discriminate]]. Qed.

(* ---------------- C6: empty feedback ---------------- *)

(* ------------------------------------------------------------------ *)
(** ** The optional refinement *)

Lemma last_snoc3 {A : Type} (l : list A) (a b c d : A) :
  last (List.app l (a :: b :: c :: nil)) d = c.
Proof.
  induction l as [|x l IH]; [reflexivity|].
  cbn [List.app]. destruct (List.app l (a :: b :: c :: nil)) eqn:E.
  - destruct l; discriminate.
  - exact IH.
Qed.

Section Refine.

Context {B : Builtins}.

Lemma main_refine_empty (revised : string) (age : Z) (d : float) (w : World)
    (line : string) (rest : list string) :
  stdin w = line :: rest -> strip line = "" ->
  main_refine revised age d w =
  (Ok revised,
   set_io w rest
     (stdout w ++ [nl ++ "Would you like any changes? ";
                   (nl ++ "--- FINAL STORY ---" ++ nl) ++ nl;
                   revised ++ nl])).
Proof.
  intros Hin Hs. unfold main_refine, bind, input. rewrite Hin, Hs.
  cbn [truthy]. unfold print, ret, set_io. cbn.
  rewrite <- !app_assoc. reflexivity.
Qed.

(** C6. When the stages have produced a revised story and the operator's
    answer to the last question is empty (white space apart), [main] ends
    normally with the revised story printed last as the final story: the
    branch is taken in [main] itself, [apply_user_feedback] is not run and
    no request is made. *)
Theorem empty_feedback_keeps_revision (w w1 : World) (revised : string)
    (age : Z) (d : float) (line : string) (rest : list string) :
  main_stages w = (Ok (revised, age, d), w1) ->
  stdin w1 = line :: rest ->
  strip line = "" ->
  exists w2,
    main w = (Ok tt, w2)
    /\ main_refine revised age d w1 = (Ok revised, w2)
    /\ issued (main_refine revised age d) w1 = []
    /\ sent w2 = sent w1
    /\ last (stdout w2) "" = revised ++ nl.
Proof.
  intros Hst Hin Hs.
  pose proof (main_refine_empty revised age d w1 line rest Hin Hs) as Hr.
  eexists. split; [|split; [exact Hr|]].
  - unfold main. rewrite (bind_ok _ _ _ _ _ Hst).
    rewrite (bind_ok _ _ _ _ _ Hr). reflexivity.
  - split; [|split].
    + apply issued_app. rewrite Hr. cbn. now rewrite app_nil_r.
    + reflexivity.
    + cbn [stdout set_io]. apply last_snoc3.
Qed.

End Refine.

Lemma empty_feedback_keeps_revision_witness :
  exists w2,
    main (world_of (Some "sk-test") ["Draft"; "Scores"; "Revised"]
            ["7"; "10"; "a story about a brave dog"; ""; "  "] 3)
    = (Ok tt, w2)
    /\ List.length (sent w2) = 3%nat
    /\ last (stdout w2) "" = "Revised" ++ nl.
Proof.
  destruct (empty_feedback_keeps_revision
              (world_of (Some "sk-test") ["Draft"; "Scores"; "Revised"]
                 ["7"; "10"; "a story about a brave dog"; ""; "  "] 3)
              (snd (main_stages
                 (world_of (Some "sk-test") ["Draft"; "Scores"; "Revised"]
                    ["7"; "10"; "a story about a brave dog"; ""; "  "] 3)))
              "Revised" 7 (of_int 10) "  " [])
    as (w2 & Hm & _ & _ & Hs & Hl).
  - vm_compute. reflexivity.
  - vm_compute. reflexivity.
  - reflexivity.
  - exists w2. split; [exact Hm|]. split; [|exact Hl].
    rewrite Hs. vm_compute. reflexivity.
Defined.

(* ------------------------------------------------------------------ *)
(** ** The instruction of the Judge *)

Lemma drop_prefix_sound (p s post : string) :
  drop_prefix p s = Some post -> s = p ++ post.
Proof.
  revert s. induction p as [|a p IH]; intros s H; simpl in H.
  - now inversion H.
  - destruct s as [|b s]; [discriminate|].
    destruct (Ascii.eqb_spec a b) as [->|]; [|discriminate].
    simpl. f_equal. now apply IH.
Qed.

Lemma after_first_sound (kw text post : string) :
  after_first kw text = Some post -> exists pre, text = pre ++ kw ++ post.
Proof.
  induction text as [|c t IH]; cbn [after_first]; intros H.
  - destruct (drop_prefix kw "") as [r|] eqn:E; [|discriminate].
    inversion H; subst. exists "". apply drop_prefix_sound in E. exact E.
  - destruct (drop_prefix kw (String c t)) as [r|] eqn:E.
    + inversion H; subst. exists "". apply drop_prefix_sound in E. exact E.
    + destruct (IH H) as [pre ->]. now exists (String c pre).
Qed.

Lemma scan_in_order_sound (frags : list string) (s : string) :
  scan_in_order frags s = true -> occur_in_order frags s.
Proof.
  revert s. induction frags as [|f rest IH]; intros s H; cbn in *; [exact I|].
  destruct (after_first f s) as [post|] eqn:E; [|discriminate].
  destruct (after_first_sound _ _ _ E) as [pre ->].
  exists pre, post. split; [reflexivity|]. now apply IH.
Qed.

Lemma append_assoc (a b c : string) : (a ++ b) ++ c = a ++ b ++ c.
Proof. induction a; simpl; congruence. Qed.

Lemma occur_in_order_after (frags : list string) (p s : string) :
  occur_in_order frags s -> occur_in_order frags (p ++ s).
Proof.
  destruct frags as [|f rest]; [trivial|].
  intros (pre & post & -> & H). exists (p ++ pre), post.
  split; [|exact H]. now rewrite append_assoc.
Qed.

Lemma occur_in_order_before (frags : list string) (s t : string) :
  occur_in_order frags s -> occur_in_order frags (s ++ t).
Proof.
  revert s. induction frags as [|f rest IH]; intros s; [trivial|].
  intros (pre & post & -> & H). exists pre, (post ++ t).
  split; [|now apply IH]. now rewrite !append_assoc.
Qed.

Lemma occur_in_order_app (fs1 fs2 : list string) (s1 s2 : string) :
  occur_in_order fs1 s1 -> occur_in_order fs2 s2 ->
  occur_in_order (fs1 ++ fs2) (s1 ++ s2).
Proof.
  revert s1. induction fs1 as [|f rest IH]; intros s1 H1 H2.
  - now apply occur_in_order_after.
  - destruct H1 as (pre & post & -> & H). exists pre, (post ++ s2).
    split; [now rewrite !append_assoc|]. now apply IH.
Qed.

(** The instruction, for any story, age, duration and word target. *)
Lemma judge_story_prompt_enumerates (story : string) (age : Z) (d : float)
    (tw : Z) :
  occur_in_order JUDGE_FRAGMENTS (judge_story_prompt story age d tw).
Proof.
  unfold judge_story_prompt, JUDGE_FRAGMENTS.
  do 6 apply occur_in_order_after.
  apply occur_in_order_app.
  - apply scan_in_order_sound. vm_compute. reflexivity.
  - apply occur_in_order_after. apply occur_in_order_before.
    apply scan_in_order_sound. vm_compute. reflexivity.
Qed.

Lemma issued_nothing {A : Type} (c : M A) (w : World) :
  sent (snd (c w)) = sent w -> issued c w = [].
Proof. intros H. apply issued_app. rewrite H. now rewrite app_nil_r. Qed.

(** C9. For every draft, age and duration, the instruction the Judge
    composes asks for a score from 1 to 10 per category, then lists the
    twelve metrics by name, numbered 1 to 12 in the order of the
    specification, then asks for the list of scores and for a bullet list
    of improvements, and forbids rewriting the story. This holds of the
    instruction whatever the word target, hence of every request
    [judge_story] makes; and it makes one whenever a credential is set and
    the duration is a float in [5, 20]. *)
Theorem judge_instruction_enumerates_metrics (story : string) (age : Z)
    (d : float) (w : World) :
  (forall tw, occur_in_order JUDGE_FRAGMENTS (judge_story_prompt story age d tw))
  /\ Forall (fun rq => occur_in_order JUDGE_FRAGMENTS (rq_content rq))
       (issued (judge_story story age d) w)
  /\ (key_missing (api_key_env w) = false ->
      valid d = true -> leb (of_int 5) d = true -> leb d (of_int 20) = true ->
      exists tw,
        issued (judge_story story age d) w =
        [chat_request (judge_story_prompt story age d tw) 1500 (decimal 2 10)])
  /\ numbered 1 METRICS =
     ["1. age_appropriateness"; "2. violence_safety"; "3. fear_safety";
      "4. medical_safety"; "5. emotional_tone"; "6. language_complexity";
      "7. social_safety"; "8. real_world_safety"; "9. sensory_safety";
      "10. moral_clarity"; "11. ending_serenity"; "12. length_match"].
Proof.
  split; [intros tw; apply judge_story_prompt_enumerates|].
  split; [|split; [|reflexivity]].
  - unfold judge_story.
    destruct (estimate_word_target d) as [tw|e] eqn:Htw.
    + rewrite <- Htw, (issued_stage d tw _ w Htw).
      destruct (key_missing (api_key_env w)) eqn:Hk.
      * rewrite issued_nothing; [constructor|].
        now rewrite (call_model_missing _ _ _ _ Hk).
      * rewrite (issued_call_model _ _ _ w Hk).
        constructor; [|constructor]. apply judge_story_prompt_enumerates.
    + rewrite issued_nothing; [constructor|]. reflexivity.
  - intros Hk Hv H5 H20.
    destruct (estimate_word_target_defined d Hv H5 H20) as [tw Htw].
    exists tw. unfold judge_story.
    rewrite (issued_stage d tw _ w Htw). now apply issued_call_model.
Qed.
